(** * Verification of the weather CLI (tommivk/weather, concurrent revision)

    The development embeds the channel-based revision of [main.go]:
    [handleInput], [handleCommand], [addFavourite], [removeFavourite],
    [fetchFavourites], [getWeatherByCity], [fetchWeather] and the [select]
    loop of [main].

    Goroutines are modelled at the granularity of channel operations: a
    goroutine runs atomically from one blocking channel operation to the
    next.  The three channels are unbuffered, so a send and its receive are
    one rendezvous step.  The HTTP provider, [encoding/json] and the file
    system are an explicit environment record.

    In that revision [main] calls [handleCommand] with a fourth argument,
    [&wg], that the function does not declare; the model follows the
    declaration, with its three parameters. *)

From Stdlib Require Import List String Ascii Bool Arith ZArith Lia Permutation.
Import ListNotations.
Local Open Scope nat_scope.
Local Open Scope list_scope.
Local Open Scope string_scope.

(** ** Strings: the two library functions the program relies on *)

Module GoStrings.

(** [strings.ToLower], on ASCII text: bytes 'A'..'Z' are mapped to
    'a'..'z', every other byte is kept. *)
Definition lower_ascii (c : ascii) : ascii :=
  let n := nat_of_ascii c in
  if ((65 <=? n) && (n <=? 90))%nat then ascii_of_nat (n + 32) else c.

Fixpoint ToLower (s : string) : string :=
  match s with
  | EmptyString => EmptyString
  | String c r => String (lower_ascii c) (ToLower r)
  end.

(** The ASCII white space of [strings.Fields]:
    '\t', '\n', '\v', '\f', '\r' and ' '. *)
Definition isSpace (c : ascii) : bool :=
  let n := nat_of_ascii c in
  (((9 <=? n) && (n <=? 13)) || (n =? 32))%nat.

Definition flush (cur : string) (rest : list string) : list string :=
  match cur with
  | EmptyString => rest
  | _ => cur :: rest
  end.

(** [strings.Fields]: the maximal runs of non-space bytes, in order.
    [cur] is the field being read. *)
Fixpoint Fields_from (cur : string) (s : string) : list string :=
  match s with
  | EmptyString => flush cur []
  | String c r =>
      if isSpace c then flush cur (Fields_from EmptyString r)
      else Fields_from (cur ++ String c EmptyString) r
  end.

Definition Fields (s : string) : list string := Fields_from EmptyString s.

End GoStrings.
Import GoStrings.

(** ** Data model *)

(** A [float32] is carried as its IEEE-754 bit pattern: the program only
    copies these values and formats them into URLs and messages. *)
Definition float32 : Type := Z.

Record Coordinates := { Lat : float32; Lon : float32 }.

Record Location := {
  City : string;
  Country : string;
  Coords : Coordinates  (* field [Coordinates] of the Go struct *)
}.

Record Config := {
  Language : string;
  Units : string;
  Favourites : list Location
}.

Record GeoResponse := {
  Name : string;
  gLat : float32;
  gLon : float32;
  gCountry : string
}.

Record WeatherResult := {
  Temperature : float32;
  FeelsLike : float32;
  Description : string;
  wCountry : string;
  wCity : string
}.

(** A Go [error] is carried as its message. *)
Definition error : Type := string.

(** What reaches standard output.  [printResult] and [printCommands] are
    kept symbolic; every other print is its text. *)
Inductive printed :=
| PText (s : string)             (* fmt.Print / Printf / Println of a text *)
| PErr (e : error)               (* fmt.Println(err) *)
| PResult (r : WeatherResult)    (* printResult(r) *)
| PCommands.                     (* printCommands() *)

(** The result of [os.ReadFile("config.json")]. *)
Inductive read_result :=
| ReadOk (data : string)
| ReadNotExist
| ReadFail (e : error).

(** The collaborators of the program. *)
Record Env := {
  fetchLocationData : string -> string -> error + GeoResponse;
  (** the body of [fetchWeather] up to its channel send *)
  weatherOf : Coordinates -> error + WeatherResult;
  (** [json.Marshal(config)] *)
  marshal : Config -> error + string;
  (** [json.Unmarshal(data, &config)]; [None] leaves [config] as it was *)
  unmarshal : string -> option Config;
  (** [os.WriteFile("config.json", ...)] *)
  writeFile : string -> option error;
  readFile : read_result
}.

(** The memory the synchronous handlers work on: the global [config], the
    content of [config.json] ([None] while the file does not exist) and the
    output so far. *)
Record World := {
  config : Config;
  disk : option string;
  out : list printed
}.

Definition print (p : printed) (w : World) : World :=
  {| config := config w; disk := disk w; out := (out w ++ [p])%list |}.

Definition setFavourites (l : list Location) (w : World) : World :=
  {| config := {| Language := Language (config w);
                  Units := Units (config w);
                  Favourites := l |};
     disk := disk w; out := out w |}.

Definition favs (w : World) : list Location := Favourites (config w).

Definition setDisk (data : string) (w : World) : World :=
  {| config := config w; disk := Some data; out := out w |}.

Definition nl : string := String (ascii_of_nat 10) EmptyString.

(** ** The synchronous favourites operations *)

Section Handlers.

Variable env : Env.

(** The duplicate scan at the head of [addFavourite]. *)
Definition isFavourite (city : string) (l : list Location) : bool :=
  existsb (fun f => String.eqb (ToLower (City f)) (ToLower city)) l.

(** [addFavourite(city, country)]: the world after the call and the
    returned error ([None] for [nil]). *)
Definition addFavourite (city country : string) (w : World)
  : World * option error :=
  if isFavourite city (favs w) then
    (w, Some (city ++ " already exists in favourites"))
  else
    match fetchLocationData env city country with
    | inl e => (w, Some e)
    | inr locationData =>
        let coordinates :=
          {| Lat := gLat locationData; Lon := gLon locationData |} in
        let newFavourites :=
          (favs w ++ [{| City := Name locationData;
                         Country := gCountry locationData;
                         Coords := coordinates |}])%list in
        let w1 := setFavourites newFavourites w in
        match marshal env (config w1) with
        | inl e => (w1, Some ("Failed to marshal data: " ++ e))
        | inr configBytes =>
            match writeFile env configBytes with
            | Some e => (w1, Some ("Failed to save config file: " ++ e))
            | None =>
                (print (PText ("New location " ++ Name locationData ++ ", "
                               ++ gCountry locationData
                               ++ " added to favourites" ++ nl))
                       (setDisk configBytes w1),
                 None)
            end
        end
    end.

(** The search loop of [removeFavourite]: the first index whose
    lower-cased city equals [city]; [None] stands for [-1]. *)
Fixpoint findIndex (city : string) (l : list Location) (i : nat)
  : option nat :=
  match l with
  | [] => None
  | f :: r =>
      if String.eqb (ToLower (City f)) city then Some i
      else findIndex city r (S i)
  end.

(** [removeFavourite(city)]. *)
Definition removeFavourite (city : string) (w : World)
  : World * option error :=
  match findIndex city (favs w) 0 with
  | None => (w, Some ("City " ++ city ++ " does not exist in favourites"))
  | Some index =>
      let w1 :=
        setFavourites (firstn index (favs w) ++ skipn (index + 1) (favs w))%list w in
      match marshal env (config w1) with
      | inl e => (w1, Some e)
      | inr configBytes =>
          match writeFile env configBytes with
          | Some e => (w1, Some e)
          | None =>
              (print (PText ("City " ++ city
                             ++ " successfully removed from favourites" ++ nl))
                     (setDisk configBytes w1),
               None)
          end
      end
  end.

(** [listFavourites()]. *)
Definition listFavourites (w : World) : World :=
  let w1 := if Nat.eqb (List.length (favs w)) 0
            then print (PText ("No favourites added" ++ nl)) w else w in
  let w2 := print (PText (nl ++ "------Favourites------" ++ nl)) w1 in
  let w3 := fold_left
              (fun acc f =>
                 print (PText (nl ++ City f ++ ", " ++ Country f)) acc)
              (favs w) w2 in
  print (PText (nl ++ nl ++ "----------------------" ++ nl ++ nl)) w3.

(** [fetchFavourites]: the world after the call and the coordinates handed
    to the [go fetchWeather(...)] statements, in spawn order.  Each
    argument is evaluated, and copied, by the [go] statement. *)
Definition fetchFavourites (w : World) : World * list Coordinates :=
  let w1 := if Nat.eqb (List.length (favs w)) 0
            then print (PText ("No favourites added" ++ nl)) w else w in
  (w1, map Coords (favs w)).

(** ** Command handlers *)

(** Where a [handleCommand] goroutine stands: not started, finished,
    blocked sending on [errorChan] (and what follows), or blocked on
    [<-weatherChan] ahead of its [printResult]. *)
Inductive hstate :=
| HStart (input : list string)
| HDone
| HSendErr (e : error) (k : hstate)
| HRecvWeather.

Record handled := {
  hworld : World;
  spawned : list Coordinates;   (* go fetchWeather(c, ...) *)
  hnext : hstate
}.

Definition mkHandled (w : World) (sp : list Coordinates) (k : hstate) :=
  {| hworld := w; spawned := sp; hnext := k |}.

(** [getWeatherByCity], followed by the [printResult(<-weatherChan)] of
    the ["w"] case: on a failed lookup the error is sent and the function
    returns, and the caller goes on to its receive. *)
Definition getWeatherByCity (city country : string) (w : World) : handled :=
  match fetchLocationData env city country with
  | inl e => mkHandled w [] (HSendErr e HRecvWeather)
  | inr data =>
      mkHandled w [{| Lat := gLat data; Lon := gLon data |}] HRecvWeather
  end.

Definition ofError (r : World * option error) : handled :=
  match snd r with
  | Some e => mkHandled (fst r) [] (HSendErr e HDone)
  | None => mkHandled (fst r) [] HDone
  end.

(** [handleCommand(input, weatherChan, errorChan)] up to its first
    blocking channel operation. *)
Definition handleCommand (input : list string) (w : World) : handled :=
  match input with
  | [] => mkHandled w [] HDone
  | verb :: args =>
      let command := ToLower verb in
      let city := match args with a :: _ => ToLower a | [] => EmptyString end in
      let country :=
        match args with _ :: b :: _ => ToLower b | _ => EmptyString end in
      let w := print (PText nl) w in
      if String.eqb command "w" then
        if (List.length input <? 2)%nat then
          mkHandled w [] (HSendErr "Missing city parameter" HDone)
        else getWeatherByCity city country w
      else if String.eqb command "f" then
        let r := fetchFavourites w in mkHandled (fst r) (snd r) HDone
      else if String.eqb command "list" then
        mkHandled (listFavourites w) [] HDone
      else if String.eqb command "fav" then
        if (List.length input <? 2)%nat then
          mkHandled w [] (HSendErr "Missing city parameter" HDone)
        else ofError (addFavourite city country w)
      else if String.eqb command "remove" then
        ofError (removeFavourite city w)
      else if String.eqb command "help" then
        mkHandled (print PCommands w) [] HDone
      else mkHandled (print (PText ("Unknown command" ++ nl)) w) [] HDone
  end.

End Handlers.

(** ** The input reader *)

(** One turn of [scanner.Scan()] followed by [scanner.Err()]: a line, the
    end of the input ([Scan] is false and [Err] is [nil]) or a read error. *)
Inductive scan_result :=
| ScanLine (text : string)
| ScanEOF
| ScanError (e : error).

(** What one iteration of the loop of [handleInput] does. *)
Inductive reader_action :=
| Forward (input : list string)   (* cmdChan <- input *)
| Spin                            (* nothing: the loop goes round again *)
| Die (msg : string).             (* log.Fatal(...) *)

Definition handleInput (r : scan_result) : reader_action :=
  match r with
  | ScanLine text => Forward (Fields text)
  | ScanEOF => Spin
  | ScanError e => Die ("Failed to scan input" ++ e)
  end.

(** ** The process: [main], the handlers and the fetch tasks *)

Record state := {
  world : World;
  (** the [handleCommand] goroutines, in spawn order *)
  handlers : list hstate;
  (** the live [fetchWeather] goroutines: spawn number and argument *)
  tasks : list (nat * Coordinates);
  (** how many [go fetchWeather(...)] statements have run *)
  issued : nat;
  (** the message of the [log.Fatal] that ended the process, if any *)
  fatal : option string
}.

Definition prompt : printed := PText (nl ++ "Command: ").

Definition zeroConfig : Config :=
  {| Language := EmptyString; Units := EmptyString; Favourites := [] |}.

Definition defaultConfig : Config :=
  {| Language := "en"; Units := "metric"; Favourites := [] |}.

Definition decode (env : Env) (data : string) (w : World) : World :=
  match unmarshal env data with
  | Some c => {| config := c; disk := disk w; out := out w |}
  | None => w
  end.

(** [createNewConfigFile()]. *)
Definition createNewConfigFile (env : Env) (w : World) : World * option error :=
  match marshal env defaultConfig with
  | inl e => (w, Some e)
  | inr file =>
      match writeFile env file with
      | Some e => (w, Some e)
      | None => (print (PText ("New Config file created" ++ nl))
                       (setDisk file w), None)
      end
  end.

(** [readConfigFile()].  When the file is missing [data] is empty at the
    final [json.Unmarshal]. *)
Definition readConfigFile (env : Env) (w : World) : World * option error :=
  match readFile env with
  | ReadNotExist =>
      let r := createNewConfigFile env
                 (print (PText ("Config file missing" ++ nl)) w) in
      match snd r with
      | Some e => (fst r, Some e)
      | None => (decode env EmptyString (fst r), None)
      end
  | ReadFail e => (w, Some e)
  | ReadOk data => (decode env data w, None)
  end.

(** The memory when [main] is entered: [config] is the zero value. *)
Definition boot (env : Env) : World :=
  {| config := zeroConfig;
     disk := match readFile env with
             | ReadOk data => Some data
             | _ => None
             end;
     out := [] |}.

(** [main] up to its first [select]. *)
Definition start (env : Env) : state :=
  let r := readConfigFile env (boot env) in
  match snd r with
  | Some e =>
      {| world := fst r; handlers := []; tasks := []; issued := 0;
         fatal := Some e |}
  | None =>
      {| world := print prompt (print PCommands (fst r));
         handlers := []; tasks := []; issued := 0; fatal := None |}
  end.

(** What the scheduler and the outside world decide at each step. *)
Inductive choice :=
| Scan (r : scan_result)
    (* the reader takes a turn; a forwarded command is received by the
       [select] of [main], which runs [go handleCommand(cmd, ...)] *)
| Run (h : nat)
    (* handler [h] runs from its start to its first channel operation *)
| ErrFromHandler (h : nat)
    (* handler [h] sends on [errorChan], [main] receives and prints *)
| OutcomeToMain (t : nat)
    (* task [t] sends its outcome, [main] receives and prints *)
| OutcomeToHandler (t h : nat).
    (* task [t] sends on [weatherChan], handler [h] receives and prints *)

Fixpoint setNth {A} (n : nat) (x : A) (l : list A) : list A :=
  match l, n with
  | [], _ => []
  | _ :: r, O => x :: r
  | y :: r, S m => y :: setNth m x r
  end.

Fixpoint takeTask (t : nat) (l : list (nat * Coordinates))
  : option (Coordinates * list (nat * Coordinates)) :=
  match l with
  | [] => None
  | (i, c) :: r =>
      if Nat.eqb i t then Some (c, r)
      else match takeTask t r with
           | Some (c', r') => Some (c', (i, c) :: r')
           | None => None
           end
  end.

Definition spawn (n : nat) (cs : list Coordinates) : list (nat * Coordinates) :=
  combine (seq n (List.length cs)) cs.

(** The outcome a fetch task sends, as [main] prints it: [fetchWeather]
    sends on exactly one of [errorChan] and [weatherChan]. *)
Definition outcome (env : Env) (c : Coordinates) : printed :=
  match weatherOf env c with
  | inl e => PErr e
  | inr res => PResult res
  end.

Definition step (env : Env) (s : state) (c : choice) : option state :=
  match fatal s with
  | Some _ => None
  | None =>
    match c with
    | Scan r =>
        match handleInput r with
        | Forward input =>
            Some {| world := print prompt (world s);
                    handlers := (handlers s ++ [HStart input])%list;
                    tasks := tasks s; issued := issued s; fatal := None |}
        | Spin => Some s
        | Die msg =>
            Some {| world := world s; handlers := handlers s;
                    tasks := tasks s; issued := issued s; fatal := Some msg |}
        end
    | Run h =>
        match nth_error (handlers s) h with
        | Some (HStart input) =>
            let r := handleCommand env input (world s) in
            Some {| world := hworld r;
                    handlers := setNth h (hnext r) (handlers s);
                    tasks := (tasks s ++ spawn (issued s) (spawned r))%list;
                    issued := issued s + List.length (spawned r);
                    fatal := None |}
        | _ => None
        end
    | ErrFromHandler h =>
        match nth_error (handlers s) h with
        | Some (HSendErr e k) =>
            Some {| world := print prompt (print (PErr e) (world s));
                    handlers := setNth h k (handlers s);
                    tasks := tasks s; issued := issued s; fatal := None |}
        | _ => None
        end
    | OutcomeToMain t =>
        match takeTask t (tasks s) with
        | Some (c, rest) =>
            Some {| world := print prompt (print (outcome env c) (world s));
                    handlers := handlers s;
                    tasks := rest; issued := issued s; fatal := None |}
        | None => None
        end
    | OutcomeToHandler t h =>
        match takeTask t (tasks s), nth_error (handlers s) h with
        | Some (c, rest), Some HRecvWeather =>
            match weatherOf env c with
            | inr res =>
                Some {| world := print (PResult res) (world s);
                        handlers := setNth h HDone (handlers s);
                        tasks := rest; issued := issued s; fatal := None |}
            | inl _ => None
            end
        | _, _ => None
        end
    end
  end.

(** A run under a schedule; [None] when a choice is not enabled. *)
Fixpoint run (env : Env) (s : state) (cs : list choice) : option state :=
  match cs with
  | [] => Some s
  | c :: r =>
      match step env s c with
      | Some s' => run env s' r
      | None => None
      end
  end.

(** ** Concrete collaborators, for running the program *)

Module Sample.

Definition geo (city country : string) : error + GeoResponse :=
  if String.eqb city "paris" then
    inr {| Name := "Paris"; gLat := 48%Z; gLon := 2%Z; gCountry := "FR" |}
  else if String.eqb city "nyc" then
    inr {| Name := "New York"; gLat := 40%Z; gLon := (-74)%Z; gCountry := "US" |}
  else if String.eqb city "oslo" then
    inr {| Name := "Oslo"; gLat := 59%Z; gLon := 10%Z; gCountry := "NO" |}
  else inl "Location not found".

(** The provider has no weather for Oslo. *)
Definition weather (c : Coordinates) : error + WeatherResult :=
  if Z.eqb (Lat c) 59 then inl "Not found"
  else inr {| Temperature := Lat c; FeelsLike := Lon c;
              Description := "clear sky"; wCountry := "--"; wCity := "--" |}.

Definition encode (c : Config) : error + string :=
  inr (fold_left (fun acc f => acc ++ City f ++ "," ++ Country f ++ ";")
                 (Favourites c) (Language c ++ ";" ++ Units c ++ ";")).

Definition helsinki : Location :=
  {| City := "Helsinki"; Country := "FI";
     Coords := {| Lat := 60%Z; Lon := 24%Z |} |}.

Definition saved : Config :=
  {| Language := "en"; Units := "metric"; Favourites := [helsinki] |}.

Definition parse (data : string) : option Config :=
  if String.eqb data "en;metric;Helsinki,FI;" then Some saved
  else if String.eqb data "en;metric;" then Some defaultConfig
  else None.

(** [config.json] holds one favourite and can be written. *)
Definition env : Env :=
  {| fetchLocationData := geo; weatherOf := weather;
     marshal := encode; unmarshal := parse;
     writeFile := fun _ => None;
     readFile := ReadOk "en;metric;Helsinki,FI;" |}.


(** [config.json] holds no favourite. *)
Definition fresh : Env :=
  {| fetchLocationData := geo; weatherOf := weather;
     marshal := encode; unmarshal := parse;
     writeFile := fun _ => None;
     readFile := ReadOk "en;metric;" |}.

(** [config.json] exists and cannot be read. *)
Definition unreadable : Env :=
  {| fetchLocationData := geo; weatherOf := weather;
     marshal := encode; unmarshal := parse;
     writeFile := fun _ => None;
     readFile := ReadFail "open config.json: permission denied" |}.

Definition world0 : World :=
  {| config := saved; disk := Some "en;metric;Helsinki,FI;"; out := [] |}.

End Sample.

(** ** The earlier revisions of the program

    The same environment serves them: [fetchLocationData] stands for the
    geocoding request and its decoding, [weatherOf] for the body of
    [fetchWeather].  [PResult] stands for the [printResult] of the revision
    at hand. *)

(** How a call that may end the process comes back: it returns, it ends in
    [log.Fatal] with a message, or it panics. *)
Inductive ending :=
| Returned
| Exited (msg : string)
| Panicked.

(** [fetchCoordinates(city, country)] of the revisions that have it: the
    geocoding request, of which only the coordinates are kept. *)
Definition fetchCoordinates (env : Env) (city country : string)
  : error + Coordinates :=
  match fetchLocationData env city country with
  | inl e => inl e
  | inr g => inr {| Lat := gLat g; Lon := gLon g |}
  end.

(** The revision with the command loop in [main] and no goroutine. *)
Module Sequential.

(** [fmt.Println(err)] when a handler returns an error. *)
Definition report (r : World * option error) : World :=
  match snd r with
  | Some e => print (PErr e) (fst r)
  | None => fst r
  end.

(** The loop of [fetchFavourites]: it returns at the first error. *)
Fixpoint fetchEach (env : Env) (l : list Location) (w : World)
  : World * option error :=
  match l with
  | [] => (w, None)
  | f :: r =>
      match weatherOf env (Coords f) with
      | inl e => (w, Some e)
      | inr weather => fetchEach env r (print (PResult weather) w)
      end
  end.

Definition fetchFavourites (env : Env) (w : World) : World * option error :=
  fetchEach env (favs w)
    (if Nat.eqb (List.length (favs w)) 0
     then print (PText ("No favourites added" ++ nl)) w else w).

Definition getWeatherByCity (env : Env) (city country : string) (w : World)
  : World * option error :=
  match fetchLocationData env city country with
  | inl e => (w, Some e)
  | inr data =>
      match weatherOf env {| Lat := gLat data; Lon := gLon data |} with
      | inl e => (w, Some e)
      | inr res => (print (PResult res) w, None)
      end
  end.

(** The body of the loop of [main] once a line is split: the empty-line
    test and the [switch]. *)
Definition command (env : Env) (input : list string) (w : World) : World :=
  match input with
  | [] => w
  | verb :: args =>
      let command := ToLower verb in
      let city := match args with a :: _ => ToLower a | [] => EmptyString end in
      let country :=
        match args with _ :: b :: _ => ToLower b | _ => EmptyString end in
      let w := print (PText nl) w in
      if String.eqb command "w" then
        if (List.length input <? 2)%nat then
          print (PText ("Missing city parameter" ++ nl)) w
        else report (getWeatherByCity env city country w)
      else if String.eqb command "f" then report (fetchFavourites env w)
      else if String.eqb command "list" then listFavourites w
      else if String.eqb command "fav" then
        if (List.length input <? 2)%nat then
          print (PText ("Missing city parameter" ++ nl)) w
        else report (addFavourite env city country w)
      else if String.eqb command "remove" then
        report (removeFavourite env city w)
      else if String.eqb command "help" then print PCommands w
      else print (PText ("Unknown command" ++ nl)) w
  end.

(** One iteration of the loop of [main]: the prompt, the scan, the command
    and the test of [scanner.Err()]. *)
Definition turn (env : Env) (r : scan_result) (w : World)
  : World * option string :=
  let w := print prompt w in
  match r with
  | ScanLine text => (command env (Fields text) w, None)
  | ScanEOF => (w, None)
  | ScanError e => (w, Some ("Failed to scan input" ++ e))
  end.


End Sequential.

(** The revision of [src/main.go]: a prompt for a city, and [log.Fatal] on
    every error. *)
Module Basic.

(** [fetchFavourites()]: [log.Fatal(nil)] at the first failed request. *)
Fixpoint fetchEach (env : Env) (l : list Location) (w : World)
  : World * ending :=
  match l with
  | [] => (w, Returned)
  | f :: r =>
      match weatherOf env (Coords f) with
      | inl _ => (w, Exited "<nil>")
      | inr weather => fetchEach env r (print (PResult weather) w)
      end
  end.

Definition fetchFavourites (env : Env) (w : World) : World * ending :=
  fetchEach env (favs w)
    (if Nat.eqb (List.length (favs w)) 0
     then print (PText ("No favourites added" ++ nl)) w else w).

(** [addFavourite(city, country)]: the entry keeps the arguments. *)
Definition addFavourite (env : Env) (city country : string) (w : World)
  : World * ending :=
  if isFavourite city (favs w) then
    (print (PText (city ++ " already exists in favourites" ++ nl)) w, Returned)
  else
    match fetchCoordinates env city country with
    | inl e => (w, Exited e)
    | inr coordinates =>
        let newFavourites :=
          (favs w ++ [{| City := city; Country := country;
                         Coords := coordinates |}])%list in
        let w1 := setFavourites newFavourites w in
        match marshal env (config w1) with
        | inl e => (w1, Exited ("Failed to marshal data: " ++ e))
        | inr configBytes =>
            match writeFile env configBytes with
            | Some e => (w1, Exited ("Failed to save config file: " ++ e))
            | None =>
                (print (PText ("New location " ++ city ++ " " ++ country
                               ++ " added" ++ nl))
                       (setDisk configBytes w1),
                 Returned)
            end
        end
    end.

Definition getWeatherByCity (env : Env) (city country : string) (w : World)
  : World * ending :=
  match fetchCoordinates env city country with
  | inl e => (w, Exited e)
  | inr coordinates =>
      match weatherOf env coordinates with
      | inl e => (w, Exited e)
      | inr res => (print (PResult res) w, Returned)
      end
  end.

(** One iteration of the loop of [main]: [input[0]] is read without a
    length test. *)
Definition turn (env : Env) (r : scan_result) (w : World) : World * ending :=
  let w := print (PText "City: ")
                 (print (PText ("Get weather by City" ++ nl)) w) in
  match r with
  | ScanLine text =>
      match Fields text with
      | [] => (w, Panicked)
      | city :: rest =>
          let country :=
            match rest with c :: _ => c | [] => EmptyString end in
          getWeatherByCity env city country w
      end
  | ScanEOF => (w, Returned)
  | ScanError e => (w, Exited ("Failed to scan input" ++ e))
  end.

End Basic.

(** The first revision: one city and country are read, looked up and
    printed. *)
Module First.



End First.

(** ** Vocabulary of the statements *)







(** The reading of the fatal-condition claim: whenever the process has ended in [log.Fatal], the
    reader met a scan error. *)
Definition onlyScanErrorIsFatal (env : Env) : Prop :=
  forall cs s,
    run env (start env) cs = Some s ->
    fatal s <> None ->
    exists e, In (Scan (ScanError e)) cs.

(** The reading of the serialization claim: when [main] takes the next command off [cmdChan],
    every handler started before has finished. *)
Definition serialized (env : Env) : Prop :=
  forall cs s text s',
    run env (start env) cs = Some s ->
    step env s (Scan (ScanLine text)) = Some s' ->
    Forall (fun h => h = HDone) (handlers s).

Definition settings (c : Config) : string * string := (Language c, Units c).

(** The tasks whose outcome a schedule delivers. *)
Definition delivered (cs : list choice) : list nat :=
  flat_map (fun c => match c with
                     | OutcomeToMain t => [t]
                     | OutcomeToHandler t _ => [t]
                     | _ => []
                     end) cs.

Definition ids (s : state) : list nat := map fst (tasks s).

(** The lower-cased city names of a list, the keys of the duplicate scan
    and of the search of [removeFavourite]. *)
Definition cityKeys (l : list Location) : list string :=
  map (fun f => ToLower (City f)) l.

Definition uniqueCities (l : list Location) : Prop := NoDup (cityKeys l).

(** The lines a schedule lets the reader forward. *)
Definition linesRead (cs : list choice) : nat :=
  List.length (filter (fun c => match c with
                                | Scan (ScanLine _) => true
                                | _ => false
                                end) cs).



(** The second world has the output of the first and more. *)
Definition extends (w w' : World) : Prop :=
  exists l, out w' = (out w ++ l)%list.

(** The line [listFavourites] prints for an entry. *)
Definition listLine (f : Location) : printed :=
  PText (nl ++ City f ++ ", " ++ Country f).


(** The world once the error a handler sends, if any, has been printed. *)
Definition settle (r : handled) : World :=
  match hnext r with
  | HSendErr e _ => print (PErr e) (hworld r)
  | _ => hworld r
  end.



(** ** Sanity runs *)

Example fields_example :
  Fields "  fav   New  york " = ["fav"; "New"; "york"].
Proof. reflexivity. Qed.

Example tolower_example : ToLower "PaRis-9" = "paris-9".
Proof. reflexivity. Qed.

Example start_example :
  favs (world (start Sample.env)) = [Sample.helsinki]
  /\ out (world (start Sample.env)) = [PCommands; prompt].
Proof. split; reflexivity. Qed.

Example remove_example :
  favs (fst (removeFavourite Sample.env "helsinki" Sample.world0)) = []
  /\ snd (removeFavourite Sample.env "helsinki" Sample.world0) = None.
Proof. split; reflexivity. Qed.

(** ** The input reader and [strings.Fields] *)










(** ** Favourites: duplicates and removal *)

Lemma isFavourite_spec (city : string) (l : list Location) :
  isFavourite city l = true <->
  exists f, In f l /\ ToLower (City f) = ToLower city.
Proof.
  unfold isFavourite. rewrite existsb_exists.
  split; intros [f [Hin H]]; exists f; (split; [assumption|]);
    now apply String.eqb_eq.
Qed.






(** The verbs are recognised by [handleCommand] after lower-casing. *)
Lemma handleCommand_remove (env : Env) (verb : string) (args : list string)
      (w : World) :
  ToLower verb = "remove" ->
  handleCommand env (verb :: args) w
  = ofError (removeFavourite env
               (match args with a :: _ => ToLower a | [] => EmptyString end)
               (print (PText nl) w)).
Proof. intros H. unfold handleCommand. rewrite H. reflexivity. Qed.

Lemma handleCommand_fav (env : Env) (verb c : string) (rest : list string)
      (w : World) :
  ToLower verb = "fav" ->
  handleCommand env (verb :: c :: rest) w
  = ofError (addFavourite env (ToLower c)
               (match rest with b :: _ => ToLower b | [] => EmptyString end)
               (print (PText nl) w)).
Proof. intros H. unfold handleCommand. rewrite H. reflexivity. Qed.


(** C5: the code at the failing input.  With an empty list, [fav nyc] typed
    twice succeeds twice: the provider resolves [nyc] to [New York], the
    stored name, and the duplicate scan compares the stored names with the
    typed one.  No error is sent and the list holds the city twice. *)
Theorem C5_fav_twice_keeps_both :
  exists s,
    run Sample.fresh (start Sample.fresh)
        [Scan (ScanLine "fav nyc"); Run 0; Scan (ScanLine "fav nyc"); Run 1]
    = Some s
    /\ map City (favs (world s)) = ["New York"; "New York"]
    /\ handlers s = [HDone; HDone].
Proof. eexists. split; [reflexivity|]. split; reflexivity. Qed.



(** ** Adding a favourite *)



(** ** Failed saves *)

Lemma nth_error_setNth (A : Type) (l : list A) (n : nat) (x y : A) :
  nth_error l n = Some x -> nth_error (setNth n y l) n = Some y.
Proof.
  revert n. induction l as [|a l IH]; intros [|n] H; simpl in *;
    try discriminate; [reflexivity | now apply IH].
Qed.






(** ** Fatal conditions *)

Lemma step_running (env : Env) (s s' : state) (c : choice) :
  step env s c = Some s' -> fatal s = None.
Proof.
  unfold step. destruct (fatal s); [discriminate | reflexivity].
Qed.

Lemma step_fatal (env : Env) (s s' : state) (c : choice) :
  step env s c = Some s' ->
  fatal s' = None \/ exists e, c = Scan (ScanError e).
Proof.
  unfold step. destruct (fatal s) eqn:Hf; [discriminate|].
  destruct c as [r|h|h|t|t h].
  - destruct r as [text| |e]; simpl; intros H; injection H as <-; simpl.
    + now left.
    + now left.
    + right. now exists e.
  - destruct (nth_error (handlers s) h) as [[input| |e k|]|];
      try discriminate. intros H; injection H as <-. now left.
  - destruct (nth_error (handlers s) h) as [[input| |e k|]|];
      try discriminate. intros H; injection H as <-. now left.
  - destruct (takeTask t (tasks s)) as [[c rest]|]; try discriminate.
    intros H; injection H as <-. now left.
  - destruct (takeTask t (tasks s)) as [[c rest]|]; try discriminate.
    destruct (nth_error (handlers s) h) as [[input| |e k|]|];
      try discriminate.
    destruct (weatherOf env c); try discriminate.
    intros H; injection H as <-. now left.
Qed.

Lemma run_fatal (env : Env) (cs : list choice) :
  forall s s',
    run env s cs = Some s' ->
    fatal s' <> None ->
    fatal s <> None \/ exists e, In (Scan (ScanError e)) cs.
Proof.
  induction cs as [|c cs IH]; intros s s' Hrun Hf; simpl in Hrun.
  - injection Hrun as <-. now left.
  - destruct (step env s c) as [s1|] eqn:Hstep; [|discriminate].
    destruct (IH s1 s' Hrun Hf) as [H1|[e He]].
    + destruct (step_fatal env s s1 c Hstep) as [Hn|[e ->]].
      * now elim H1.
      * right. exists e. now left.
    + right. exists e. now right.
Qed.

(** C7, as the claim has it, fails: [main] also ends the process, before
    any input is read, when [readConfigFile] returns an error. *)
Lemma C7_unreadable_config_is_fatal :
  ~ onlyScanErrorIsFatal Sample.unreadable.
Proof.
  intros H.
  destruct (H [] (start Sample.unreadable) eq_refl) as [e []].
  simpl. discriminate.
Qed.

(** C7 (amended): a scan error ends the process at once with the message
    [Failed to scan input] followed by the error, and nothing runs after
    it; the process is ended only by such a scan error or, at start-up, by
    an error of [readConfigFile]; every other step, the printing of an
    error from a handler or a fetch task included, leaves it running. *)
Theorem C7_fatal_conditions :
  forall env : Env,
    (forall s e,
        fatal s = None ->
        exists s',
          step env s (Scan (ScanError e)) = Some s'
          /\ fatal s' = Some ("Failed to scan input" ++ e)
          /\ forall c, step env s' c = None)
    /\ (forall cs s,
           run env (start env) cs = Some s ->
           fatal s <> None ->
           snd (readConfigFile env (boot env)) <> None
           \/ exists e, In (Scan (ScanError e)) cs)
    /\ (forall s c s',
           step env s c = Some s' ->
           (forall e, c <> Scan (ScanError e)) ->
           fatal s' = None).
Proof.
  intros env. split; [|split].
  - intros s e Hf. unfold step. rewrite Hf. simpl.
    eexists. split; [reflexivity|]. split; [reflexivity|].
    intros c. reflexivity.
  - intros cs s Hrun Hf.
    destruct (run_fatal env cs (start env) s Hrun Hf) as [H|H];
      [left | now right].
    unfold start in H.
    destruct (snd (readConfigFile env (boot env))); [discriminate|].
    now elim H.
  - intros s c s' Hstep Hc.
    destruct (step_fatal env s s' c Hstep) as [H|[e ->]]; [assumption|].
    now elim (Hc e).
Qed.

Lemma C7_fatal_conditions_witness :
  (exists s',
      step Sample.env (start Sample.env) (Scan (ScanError "read error")) = Some s'
      /\ fatal s' = Some "Failed to scan inputread error"
      /\ forall c, step Sample.env s' c = None)
  /\ (snd (readConfigFile Sample.unreadable (boot Sample.unreadable)) <> None
      \/ exists e, In (Scan (ScanError e)) []).
Proof.
  split.
  - apply (proj1 (C7_fatal_conditions Sample.env)
                 (start Sample.env) "read error").
    reflexivity.
  - apply (proj1 (proj2 (C7_fatal_conditions Sample.unreadable))
                 [] (start Sample.unreadable)).
    + reflexivity.
    + simpl. discriminate.
Defined.

(** ** Who changes the configuration *)

Ltac break_match :=
  repeat match goal with
         | |- context [match ?x with _ => _ end] => destruct x eqn:?
         | |- context [if ?x then _ else _] => destruct x eqn:?
         end.

Lemma fold_print_config (A : Type) (p : A -> printed) (l : list A) (w : World) :
  config (fold_left (fun acc f => print (p f) acc) l w) = config w.
Proof.
  revert w. induction l as [|a l IH]; intros w; simpl; [reflexivity|].
  now rewrite IH.
Qed.

Lemma listFavourites_config (w : World) : config (listFavourites w) = config w.
Proof.
  unfold listFavourites. simpl. rewrite fold_print_config.
  now destruct (Nat.eqb (List.length (favs w)) 0).
Qed.

Lemma addFavourite_settings (env : Env) (city country : string) (w : World) :
  settings (config (fst (addFavourite env city country w)))
  = settings (config w).
Proof. unfold addFavourite. break_match; reflexivity. Qed.

Lemma removeFavourite_settings (env : Env) (city : string) (w : World) :
  settings (config (fst (removeFavourite env city w))) = settings (config w).
Proof. unfold removeFavourite. break_match; reflexivity. Qed.

Lemma ofError_world (r : World * option error) : hworld (ofError r) = fst r.
Proof. unfold ofError. now destruct (snd r). Qed.

(** Only the [fav] and [remove] cases of [handleCommand] touch [config]. *)
Lemma handleCommand_config (env : Env) (input : list string) (w : World) :
  config (hworld (handleCommand env input w)) = config w
  \/ exists verb args,
      input = verb :: args
      /\ (ToLower verb = "fav" \/ ToLower verb = "remove").
Proof.
  destruct input as [|verb args]; [now left|].
  unfold handleCommand.
  destruct (String.eqb_spec (ToLower verb) "w") as [_|_].
  { left. unfold getWeatherByCity. break_match; reflexivity. }
  destruct (String.eqb_spec (ToLower verb) "f") as [_|_].
  { left. unfold fetchFavourites. simpl. break_match; reflexivity. }
  destruct (String.eqb_spec (ToLower verb) "list") as [_|_].
  { left. unfold mkHandled, hworld. now rewrite listFavourites_config. }
  destruct (String.eqb_spec (ToLower verb) "fav") as [E|_].
  { right. exists verb, args. split; [reflexivity | now left]. }
  destruct (String.eqb_spec (ToLower verb) "remove") as [E|_].
  { right. exists verb, args. split; [reflexivity | now right]. }
  left. break_match; reflexivity.
Qed.

Lemma handleCommand_settings (env : Env) (input : list string) (w : World) :
  settings (config (hworld (handleCommand env input w))) = settings (config w).
Proof.
  destruct (handleCommand_config env input w) as [->|(verb & args & -> & H)];
    [reflexivity|].
  destruct H as [H|H].
  - destruct args as [|c rest].
    + unfold handleCommand. rewrite H. reflexivity.
    + rewrite (handleCommand_fav env verb c rest w H), ofError_world.
      now rewrite addFavourite_settings.
  - rewrite (handleCommand_remove env verb args w H), ofError_world.
    now rewrite removeFavourite_settings.
Qed.

(** C1, as the claim has it, fails: after [w paris] the handler waits on
    [weatherChan], and [main] takes the next command all the same. *)
Lemma C1_handlers_overlap : ~ serialized Sample.env.
Proof.
  intros H.
  assert (F : Forall (fun h => h = HDone) [HRecvWeather]).
  { refine (H [Scan (ScanLine "w paris"); Run 0] _ "fav nyc" _ eq_refl eq_refl). }
  inversion F as [|x l Hx _]. discriminate Hx.
Qed.

(** C1 (amended): [config] changes only in a step of a [handleCommand]
    goroutine whose command is [fav] or [remove]: no step in which [main]
    receives a command, an error or a result changes it, and no fetch task
    does; the language and units never change.  Handlers of different
    commands may be alive together. *)
Theorem C1_config_changes_only_in_handlers :
  forall (env : Env) (s s' : state) (c : choice),
    step env s c = Some s' ->
    settings (config (world s')) = settings (config (world s))
    /\ (config (world s') = config (world s)
        \/ exists h verb args,
            c = Run h
            /\ nth_error (handlers s) h = Some (HStart (verb :: args))
            /\ (ToLower verb = "fav" \/ ToLower verb = "remove")).
Proof.
  intros env s s' c. unfold step.
  destruct (fatal s); [discriminate|].
  destruct c as [r|h|h|t|t h].
  - destruct r as [text| |e]; simpl; intros H; injection H as <-;
      (split; [reflexivity | now left]).
  - destruct (nth_error (handlers s) h) as [[input| |e k|]|] eqn:Hh;
      try discriminate.
    intros H; injection H as <-. simpl.
    split; [apply handleCommand_settings|].
    destruct (handleCommand_config env input (world s))
      as [E|(verb & args & -> & Hv)]; [now left|].
    right. exists h, verb, args. now repeat split.
  - destruct (nth_error (handlers s) h) as [[input| |e k|]|];
      try discriminate.
    intros H; injection H as <-. split; [reflexivity | now left].
  - destruct (takeTask t (tasks s)) as [[co rest]|]; try discriminate.
    intros H; injection H as <-. split; [reflexivity | now left].
  - destruct (takeTask t (tasks s)) as [[co rest]|]; try discriminate.
    destruct (nth_error (handlers s) h) as [[input| |e k|]|];
      try discriminate.
    destruct (weatherOf env co); try discriminate.
    intros H; injection H as <-. split; [reflexivity | now left].
Qed.

Lemma C1_config_changes_only_in_handlers_witness :
  settings (config (world (start Sample.env))) = ("en", "metric")
  /\ exists s1 s2,
      step Sample.env (start Sample.env) (Scan (ScanLine "fav nyc")) = Some s1
      /\ step Sample.env s1 (Run 0) = Some s2
      /\ settings (config (world s2)) = settings (config (world s1)).
Proof.
  split; [reflexivity|].
  eexists. eexists. split; [reflexivity|].
  split; [reflexivity|].
  refine (proj1 (C1_config_changes_only_in_handlers Sample.env _ _ (Run 0) _)).
  reflexivity.
Defined.

(** ** Fetch tasks and their outcomes *)

Lemma spawn_ids (n : nat) (cs : list Coordinates) :
  map fst (spawn n cs) = seq n (List.length cs).
Proof.
  unfold spawn. revert n. induction cs as [|c cs IH]; intros n; simpl;
    [reflexivity | now rewrite IH].
Qed.



Lemma takeTask_perm (t : nat) (l rest : list (nat * Coordinates))
      (co : Coordinates) :
  takeTask t l = Some (co, rest) -> Permutation l ((t, co) :: rest).
Proof.
  revert rest. induction l as [|[i c] l IH]; intros rest H; simpl in H;
    [discriminate|].
  destruct (Nat.eqb_spec i t) as [->|_].
  - injection H as <- <-. apply Permutation_refl.
  - destruct (takeTask t l) as [[c' r']|]; [|discriminate].
    injection H as <- <-.
    eapply perm_trans; [apply perm_skip, IH; reflexivity | apply perm_swap].
Qed.


(** What a step does to the tasks: a delivery takes one task out, a handler
    adds the tasks it spawns under fresh numbers, the rest keeps them. *)
Lemma step_tasks (env : Env) (s s' : state) (c : choice) :
  step env s c = Some s' ->
  match c with
  | OutcomeToMain t | OutcomeToHandler t _ =>
      exists co, takeTask t (tasks s) = Some (co, tasks s')
                 /\ issued s' = issued s
  | Run h =>
      exists sp, tasks s' = (tasks s ++ spawn (issued s) sp)%list
                 /\ issued s' = issued s + List.length sp
  | _ => tasks s' = tasks s /\ issued s' = issued s
  end.
Proof.
  unfold step. destruct (fatal s); [discriminate|].
  destruct c as [r|h|h|t|t h].
  - destruct r as [text| |e]; simpl; intros H; injection H as <-;
      split; reflexivity.
  - destruct (nth_error (handlers s) h) as [[input| |e k|]|];
      try discriminate.
    intros H; injection H as <-. eexists. split; reflexivity.
  - destruct (nth_error (handlers s) h) as [[input| |e k|]|];
      try discriminate.
    intros H; injection H as <-. split; reflexivity.
  - destruct (takeTask t (tasks s)) as [[co rest]|]; try discriminate.
    intros H; injection H as <-. exists co. split; reflexivity.
  - destruct (takeTask t (tasks s)) as [[co rest]|]; try discriminate.
    destruct (nth_error (handlers s) h) as [[input| |e k|]|];
      try discriminate.
    destruct (weatherOf env co); try discriminate.
    intros H; injection H as <-. exists co. split; reflexivity.
Qed.

(** Delivered and live tasks together are the tasks issued so far. *)
Lemma step_accounts (env : Env) (s s' : state) (c : choice) (D : list nat) :
  step env s c = Some s' ->
  Permutation (D ++ ids s) (seq 0 (issued s)) ->
  Permutation ((D ++ delivered [c]) ++ ids s') (seq 0 (issued s')).
Proof.
  intros Hstep Hinv. pose proof (step_tasks env s s' c Hstep) as H.
  unfold ids in *.
  assert (Hdel : forall t co,
             takeTask t (tasks s) = Some (co, tasks s') ->
             issued s' = issued s ->
             Permutation ((D ++ [t]) ++ map fst (tasks s')) (seq 0 (issued s'))).
  { intros t co Ht ->. eapply perm_trans; [|exact Hinv].
    rewrite <- app_assoc. apply Permutation_app_head. simpl.
    apply Permutation_sym.
    exact (Permutation_map fst (takeTask_perm _ _ _ _ Ht)). }
  destruct c as [r|h|h|t|t h]; simpl.
  - destruct H as [-> ->]. now rewrite app_nil_r.
  - destruct H as (sp & -> & ->). rewrite app_nil_r, map_app, spawn_ids.
    rewrite seq_app, app_assoc. simpl.
    now apply Permutation_app_tail.
  - destruct H as [-> ->]. now rewrite app_nil_r.
  - destruct H as (co & Ht & Hi). exact (Hdel t co Ht Hi).
  - destruct H as (co & Ht & Hi). exact (Hdel t co Ht Hi).
Qed.

Lemma delivered_app (a b : list choice) :
  delivered (a ++ b) = (delivered a ++ delivered b)%list.
Proof. unfold delivered. now rewrite flat_map_app. Qed.

Lemma run_accounts (env : Env) (cs : list choice) :
  forall (s s' : state) (D : list nat),
    run env s cs = Some s' ->
    Permutation (D ++ ids s) (seq 0 (issued s)) ->
    Permutation ((D ++ delivered cs) ++ ids s') (seq 0 (issued s')).
Proof.
  induction cs as [|c cs IH]; intros s s' D Hrun Hinv; simpl in Hrun.
  - injection Hrun as <-. simpl. now rewrite app_nil_r.
  - destruct (step env s c) as [s1|] eqn:Hstep; [|discriminate].
    pose proof (IH s1 s' (D ++ delivered [c])%list Hrun
                   (step_accounts env s s1 c D Hstep Hinv)) as H.
    change (c :: cs) with ([c] ++ cs)%list.
    now rewrite delivered_app, app_assoc.
Qed.

Lemma start_accounts (env : Env) :
  Permutation ([] ++ ids (start env)) (seq 0 (issued (start env))).
Proof.
  unfold start. destruct (snd (readConfigFile env (boot env))); apply perm_nil.
Qed.






(** ** The favourites fan-out *)





(** ** The direct lookup *)

(** C3: the code at the failing input.  [w oslo] resolves, one task is
    spawned and fails; [main] prints its error, and the handler of the
    command stays on [<-weatherChan].  At the next [f] the result of the
    favourite's task can be taken by that handler. *)
Theorem C3_failed_lookup_leaves_receiver :
  exists s s2,
    run Sample.env (start Sample.env)
        [Scan (ScanLine "w oslo"); Run 0; OutcomeToMain 0] = Some s
    /\ out (world s)
       = [PCommands; prompt; prompt; PText nl; PErr "Not found"; prompt]
    /\ tasks s = []
    /\ handlers s = [HRecvWeather]
    /\ run Sample.env s [Scan (ScanLine "f"); Run 1; OutcomeToHandler 1 0]
       = Some s2
    /\ handlers s2 = [HDone; HDone]
    /\ tasks s2 = [].
Proof.
  eexists. eexists. split; [reflexivity|].
  repeat (split; [reflexivity|]). reflexivity.
Qed.


(** * Further properties of the code *)

(** ** Lower-casing and the shape of a command *)

Lemma lower_ascii_idem (c : ascii) : lower_ascii (lower_ascii c) = lower_ascii c.
Proof. destruct c as [[] [] [] [] [] [] [] []]; reflexivity. Qed.

Lemma ToLower_idem (s : string) : ToLower (ToLower s) = ToLower s.
Proof.
  induction s as [|c s IH]; simpl; [reflexivity|].
  now rewrite lower_ascii_idem, IH.
Qed.


(** X1: [handleCommand] looks at the first three tokens only, and at each
    of them up to the case of its letters. *)
Theorem handleCommand_first_three_lowered :
  forall (env : Env) (input : list string) (w : World),
    handleCommand env (map ToLower (firstn 3 input)) w
    = handleCommand env input w.
Proof.
  intros env input w.
  destruct input as [|verb [|c [|b rest]]]; cbn [firstn map];
    unfold handleCommand; rewrite ?ToLower_idem; reflexivity.
Qed.



(** ** The list of favourites *)





Lemma cityKeys_app (a b : list Location) :
  cityKeys (a ++ b)%list = (cityKeys a ++ cityKeys b)%list.
Proof. unfold cityKeys. apply map_app. Qed.







(** ** Listing *)

Lemma fold_print_out (A : Type) (p : A -> printed) (l : list A) (w : World) :
  out (fold_left (fun acc f => print (p f) acc) l w) = (out w ++ map p l)%list.
Proof.
  revert w. induction l as [|a l IH]; intros w; simpl.
  - now rewrite app_nil_r.
  - rewrite IH. simpl. now rewrite <- app_assoc.
Qed.

Lemma fold_print_disk (A : Type) (p : A -> printed) (l : list A) (w : World) :
  disk (fold_left (fun acc f => print (p f) acc) l w) = disk w.
Proof.
  revert w. induction l as [|a l IH]; intros w; simpl; [reflexivity|].
  now rewrite IH.
Qed.

(** X6: [listFavourites] prints the heading, one line per favourite in
    list order and the closing rule, preceded by [No favourites added] when
    the list is empty (heading and rule are printed all the same); it
    changes neither the configuration nor the file. *)
Theorem listFavourites_output :
  forall w : World,
    out (listFavourites w)
    = (out w
       ++ (if Nat.eqb (List.length (favs w)) 0
           then [PText ("No favourites added" ++ nl)] else [])
       ++ [PText (nl ++ "------Favourites------" ++ nl)]
       ++ map listLine (favs w)
       ++ [PText (nl ++ nl ++ "----------------------" ++ nl ++ nl)])%list
    /\ config (listFavourites w) = config w
    /\ disk (listFavourites w) = disk w.
Proof.
  intros w. split; [|split].
  - unfold listFavourites. cbn [print out].
    rewrite (fold_print_out Location listLine).
    destruct (Nat.eqb (List.length (favs w)) 0); simpl;
      rewrite <- ?app_assoc; reflexivity.
  - apply listFavourites_config.
  - unfold listFavourites. cbn [print disk].
    rewrite (fold_print_disk Location).
    now destruct (Nat.eqb (List.length (favs w)) 0).
Qed.

(** ** Start-up *)

(** X7: with no [config.json], [main] writes the default configuration to
    the file and announces it, yet starts with the zero configuration in
    memory (empty language and units, no favourite), the decoding of the
    empty data failing; when the file cannot be written the process ends
    with that error before any prompt. *)
Theorem start_without_config_file :
  forall (env : Env) (file : string),
    readFile env = ReadNotExist ->
    marshal env defaultConfig = inr file ->
    unmarshal env EmptyString = None ->
    (writeFile env file = None ->
     fatal (start env) = None
     /\ config (world (start env)) = zeroConfig
     /\ disk (world (start env)) = Some file
     /\ out (world (start env))
        = [PText ("Config file missing" ++ nl);
           PText ("New Config file created" ++ nl); PCommands; prompt])
    /\ (forall e,
           writeFile env file = Some e ->
           fatal (start env) = Some e
           /\ out (world (start env)) = [PText ("Config file missing" ++ nl)]).
Proof.
  intros env file Hread Hm Hu. split.
  - intros Hw. unfold start, readConfigFile, createNewConfigFile, decode, boot.
    rewrite Hread, Hm, Hw. simpl. rewrite Hu. simpl. now repeat split.
  - intros e Hw. unfold start, readConfigFile, createNewConfigFile, boot.
    rewrite Hread, Hm, Hw. simpl. now split.
Qed.

Lemma start_without_config_file_witness :
  fatal (start {| fetchLocationData := Sample.geo; weatherOf := Sample.weather;
                  marshal := Sample.encode; unmarshal := Sample.parse;
                  writeFile := fun _ => None; readFile := ReadNotExist |}) = None
  /\ config (world (start {| fetchLocationData := Sample.geo;
                             weatherOf := Sample.weather;
                             marshal := Sample.encode;
                             unmarshal := Sample.parse;
                             writeFile := fun _ => None;
                             readFile := ReadNotExist |})) = zeroConfig.
Proof.
  destruct (proj1 (start_without_config_file
                     {| fetchLocationData := Sample.geo;
                        weatherOf := Sample.weather;
                        marshal := Sample.encode; unmarshal := Sample.parse;
                        writeFile := fun _ => None; readFile := ReadNotExist |}
                     "en;metric;" eq_refl eq_refl eq_refl) eq_refl)
    as (H1 & H2 & _).
  split; [exact H1 | exact H2].
Defined.



(** ** Invariants of the process *)

Lemma extends_refl (w : World) : extends w w.
Proof. exists []. now rewrite app_nil_r. Qed.

Lemma extends_trans (a b c : World) : extends a b -> extends b c -> extends a c.
Proof.
  intros [l Hl] [m Hm]. exists (l ++ m)%list. now rewrite Hm, Hl, app_assoc.
Qed.

Lemma extends_print (p : printed) (w : World) : extends w (print p w).
Proof. now exists [p]. Qed.

Lemma extends_same_out (w w' : World) : out w' = out w -> extends w w'.
Proof. intros H. exists []. now rewrite app_nil_r. Qed.

Ltac extends_cases :=
  break_match;
  first [ apply extends_refl
        | apply extends_same_out; reflexivity
        | eapply extends_trans; [|apply extends_print];
          apply extends_same_out; reflexivity ].

Lemma addFavourite_extends (env : Env) (city country : string) (w : World) :
  extends w (fst (addFavourite env city country w)).
Proof. unfold addFavourite. extends_cases. Qed.

Lemma removeFavourite_extends (env : Env) (city : string) (w : World) :
  extends w (fst (removeFavourite env city w)).
Proof. unfold removeFavourite. extends_cases. Qed.

Lemma listFavourites_extends (w : World) : extends w (listFavourites w).
Proof.
  unfold extends. rewrite (proj1 (listFavourites_output w)). now eexists.
Qed.

Lemma handleCommand_extends (env : Env) (input : list string) (w : World) :
  extends w (hworld (handleCommand env input w)).
Proof.
  destruct input as [|verb args]; [apply extends_refl|].
  apply (extends_trans _ (print (PText nl) w)); [apply extends_print|].
  unfold handleCommand.
  set (city := match args with a :: _ => ToLower a | [] => EmptyString end).
  set (country := match args with _ :: b :: _ => ToLower b | _ => EmptyString end).
  set (w0 := print (PText nl) w).
  destruct (String.eqb (ToLower verb) "w").
  { unfold getWeatherByCity. break_match; apply extends_refl. }
  destruct (String.eqb (ToLower verb) "f").
  { unfold fetchFavourites, favs. simpl.
    destruct (Nat.eqb (List.length (Favourites (config w))) 0);
      [apply extends_print | apply extends_refl]. }
  destruct (String.eqb (ToLower verb) "list").
  { apply listFavourites_extends. }
  destruct (String.eqb (ToLower verb) "fav").
  { destruct (List.length (verb :: args) <? 2)%nat; [apply extends_refl|].
    rewrite ofError_world. apply addFavourite_extends. }
  destruct (String.eqb (ToLower verb) "remove").
  { rewrite ofError_world. apply removeFavourite_extends. }
  destruct (String.eqb (ToLower verb) "help"); apply extends_print.
Qed.

Lemma step_extends (env : Env) (s s' : state) (c : choice) :
  step env s c = Some s' -> extends (world s) (world s').
Proof.
  unfold step. destruct (fatal s); [discriminate|].
  destruct c as [r|h|h|t|t h].
  - destruct r as [text| |e]; simpl; intros H; injection H as <-;
      [apply extends_print | apply extends_refl | apply extends_refl].
  - destruct (nth_error (handlers s) h) as [[input| |e k|]|];
      try discriminate.
    intros H; injection H as <-. apply handleCommand_extends.
  - destruct (nth_error (handlers s) h) as [[input| |e k|]|];
      try discriminate.
    intros H; injection H as <-.
    eapply extends_trans; apply extends_print.
  - destruct (takeTask t (tasks s)) as [[co rest]|]; try discriminate.
    intros H; injection H as <-.
    eapply extends_trans; apply extends_print.
  - destruct (takeTask t (tasks s)) as [[co rest]|]; try discriminate.
    destruct (nth_error (handlers s) h) as [[input| |e k|]|];
      try discriminate.
    destruct (weatherOf env co); try discriminate.
    intros H; injection H as <-. apply extends_print.
Qed.

(** X9: what has been printed stays: along every run the output grows at
    its end only. *)
Theorem output_only_grows :
  forall (env : Env) (cs : list choice) (s s' : state),
    run env s cs = Some s' -> extends (world s) (world s').
Proof.
  intros env cs. induction cs as [|c cs IH]; intros s s' Hrun; simpl in Hrun.
  - injection Hrun as <-. apply extends_refl.
  - destruct (step env s c) as [s1|] eqn:Hstep; [|discriminate].
    exact (extends_trans _ _ _ (step_extends env s s1 c Hstep) (IH s1 s' Hrun)).
Qed.

Lemma output_only_grows_witness :
  extends (world (start Sample.env))
          (world {| world := print prompt (world (start Sample.env));
                    handlers := [HStart ["list"]];
                    tasks := []; issued := 0; fatal := None |}).
Proof.
  apply (output_only_grows Sample.env [Scan (ScanLine "list")]).
  reflexivity.
Defined.






(** ** Handlers *)

Lemma length_setNth (A : Type) (n : nat) (x : A) (l : list A) :
  List.length (setNth n x l) = List.length l.
Proof.
  revert n. induction l as [|a l IH]; intros [|n]; simpl;
    try reflexivity. now rewrite IH.
Qed.


Lemma step_handlers (env : Env) (s s' : state) (c : choice) :
  step env s c = Some s' ->
  List.length (handlers s') = List.length (handlers s) + linesRead [c].
Proof.
  unfold step. destruct (fatal s); [discriminate|].
  destruct c as [r|h|h|t|t h].
  - destruct r as [text| |e]; simpl; intros H; injection H as <-;
      unfold linesRead; simpl; rewrite ?length_app; simpl; lia.
  - destruct (nth_error (handlers s) h) as [[input| |e k|]|];
      try discriminate.
    intros H; injection H as <-. simpl. rewrite length_setNth.
    unfold linesRead. simpl. lia.
  - destruct (nth_error (handlers s) h) as [[input| |e k|]|];
      try discriminate.
    intros H; injection H as <-. simpl. rewrite length_setNth.
    unfold linesRead. simpl. lia.
  - destruct (takeTask t (tasks s)) as [[co rest]|]; try discriminate.
    intros H; injection H as <-. unfold linesRead. simpl. lia.
  - destruct (takeTask t (tasks s)) as [[co rest]|]; try discriminate.
    destruct (nth_error (handlers s) h) as [[input| |e k|]|];
      try discriminate.
    destruct (weatherOf env co); try discriminate.
    intros H; injection H as <-. simpl. rewrite length_setNth.
    unfold linesRead. simpl. lia.
Qed.

Lemma linesRead_cons (c : choice) (cs : list choice) :
  linesRead (c :: cs) = linesRead [c] + linesRead cs.
Proof.
  unfold linesRead. change (c :: cs) with ([c] ++ cs)%list.
  now rewrite filter_app, length_app.
Qed.

(** X11: [main] starts one [handleCommand] goroutine per line the reader
    forwards, blank lines included, and no goroutine is ever dropped from
    the count: after a run the handlers are as many as before plus the
    lines read. *)
Theorem one_handler_per_line :
  forall (env : Env) (cs : list choice) (s s' : state),
    run env s cs = Some s' ->
    List.length (handlers s') = List.length (handlers s) + linesRead cs.
Proof.
  intros env cs. induction cs as [|c cs IH]; intros s s' Hrun; simpl in Hrun.
  - injection Hrun as <-. unfold linesRead. simpl. lia.
  - destruct (step env s c) as [s1|] eqn:Hstep; [|discriminate].
    rewrite (IH s1 s' Hrun), (step_handlers env s s1 c Hstep).
    rewrite (linesRead_cons c cs). lia.
Qed.

Lemma one_handler_per_line_witness :
  List.length
    (handlers {| world := print prompt (print prompt (world (start Sample.env)));
                 handlers := [HStart []; HStart ["f"]];
                 tasks := []; issued := 0; fatal := None |})
  = List.length (handlers (start Sample.env))
    + linesRead [Scan (ScanLine "  "); Scan ScanEOF; Scan (ScanLine "f")].
Proof.
  apply (one_handler_per_line Sample.env
           [Scan (ScanLine "  "); Scan ScanEOF; Scan (ScanLine "f")]).
  reflexivity.
Defined.






(** ** Deliveries *)


Lemma takeTask_last (t : nat) (co : Coordinates) (l : list (nat * Coordinates)) :
  ~ In t (map fst l) -> takeTask t (l ++ [(t, co)])%list = Some (co, l).
Proof.
  induction l as [|[i c] l IH]; intros Hnot; simpl in *.
  - now rewrite Nat.eqb_refl.
  - destruct (Nat.eqb_spec i t) as [E|E]; [elim Hnot; now left|].
    rewrite IH; [reflexivity|]. intros H. apply Hnot. now right.
Qed.



(** ** The two ways of a [w] command *)

(** X14: [w <city>] whose lookup fails spawns no task; the lookup error is
    sent and printed by [main], and the handler, back from
    [getWeatherByCity], is left waiting on [weatherChan]. *)
Theorem w_lookup_failure :
  forall (env : Env) (s : state) (h : nat) (verb c : string)
         (rest : list string) (e : error),
    fatal s = None ->
    nth_error (handlers s) h = Some (HStart (verb :: c :: rest)) ->
    ToLower verb = "w" ->
    fetchLocationData env (ToLower c)
      (match rest with b :: _ => ToLower b | [] => EmptyString end) = inl e ->
    exists s1 s2,
      step env s (Run h) = Some s1
      /\ step env s1 (ErrFromHandler h) = Some s2
      /\ tasks s2 = tasks s
      /\ issued s2 = issued s
      /\ config (world s2) = config (world s)
      /\ out (world s2) = (out (world s) ++ [PText nl; PErr e; prompt])%list
      /\ nth_error (handlers s2) h = Some HRecvWeather.
Proof.
  intros env s h verb c rest e Hf Hh Hverb Hgeo.
  assert (Hc : handleCommand env (verb :: c :: rest) (world s)
               = mkHandled (print (PText nl) (world s)) []
                           (HSendErr e HRecvWeather)).
  { unfold handleCommand. rewrite Hverb. simpl.
    unfold getWeatherByCity. now rewrite Hgeo. }
  pose proof (nth_error_setNth _ _ _ _ (HSendErr e HRecvWeather) Hh) as Hh1.
  eexists. eexists.
  split; [unfold step; rewrite Hf, Hh, Hc; reflexivity|].
  unfold step. simpl. rewrite Hh1.
  split; [reflexivity|]. simpl.
  split; [apply app_nil_r|]. split; [lia|]. split; [reflexivity|].
  split; [now rewrite <- !app_assoc|].
  eapply nth_error_setNth. exact Hh1.
Qed.

Lemma w_lookup_failure_witness :
  exists s1 s2,
    step Sample.env
         {| world := Sample.world0; handlers := [HStart ["w"; "Atlantis"]];
            tasks := []; issued := 0; fatal := None |} (Run 0) = Some s1
    /\ step Sample.env s1 (ErrFromHandler 0) = Some s2
    /\ tasks s2 = []
    /\ issued s2 = 0
    /\ config (world s2) = Sample.saved
    /\ out (world s2) = [PText nl; PErr "Location not found"; prompt]
    /\ nth_error (handlers s2) 0 = Some HRecvWeather.
Proof.
  apply (w_lookup_failure
           Sample.env
           {| world := Sample.world0; handlers := [HStart ["w"; "Atlantis"]];
              tasks := []; issued := 0; fatal := None |}
           0 "w" "Atlantis" [] "Location not found"
           eq_refl eq_refl eq_refl eq_refl).
Defined.

Lemma reachable_fresh (env : Env) (cs : list choice) (s : state) :
  run env (start env) cs = Some s -> ~ In (issued s) (ids s).
Proof.
  intros Hrun Hin.
  pose proof (run_accounts env cs (start env) s [] Hrun (start_accounts env))
    as Hp.
  simpl in Hp.
  assert (H : In (issued s) (seq 0 (issued s))).
  { apply (Permutation_in _ Hp). apply in_or_app. now right. }
  apply in_seq in H. lia.
Qed.

(** X15: [w <city>] whose lookup and request succeed spawns one task, and
    its result has two receivers.  Taken by the handler, it is printed and
    the handler ends; taken by [main], it is printed, followed by the
    prompt, and the handler is left waiting on [weatherChan] with no task
    of its own. *)
Theorem w_result_has_two_receivers :
  forall (env : Env) (cs : list choice) (s : state) (h : nat)
         (verb c : string) (rest : list string) (g : GeoResponse)
         (res : WeatherResult),
    run env (start env) cs = Some s ->
    fatal s = None ->
    nth_error (handlers s) h = Some (HStart (verb :: c :: rest)) ->
    ToLower verb = "w" ->
    fetchLocationData env (ToLower c)
      (match rest with b :: _ => ToLower b | [] => EmptyString end) = inr g ->
    weatherOf env {| Lat := gLat g; Lon := gLon g |} = inr res ->
    exists s1,
      step env s (Run h) = Some s1
      /\ tasks s1 = (tasks s ++ [(issued s, {| Lat := gLat g; Lon := gLon g |})])%list
      /\ (exists s2,
             step env s1 (OutcomeToHandler (issued s) h) = Some s2
             /\ out (world s2) = (out (world s) ++ [PText nl; PResult res])%list
             /\ nth_error (handlers s2) h = Some HDone
             /\ tasks s2 = tasks s)
      /\ (exists s2,
             step env s1 (OutcomeToMain (issued s)) = Some s2
             /\ out (world s2)
                = (out (world s) ++ [PText nl; PResult res; prompt])%list
             /\ nth_error (handlers s2) h = Some HRecvWeather
             /\ tasks s2 = tasks s).
Proof.
  intros env cs s h verb c rest g res Hrun Hf Hh Hverb Hgeo Hw.
  pose proof (reachable_fresh env cs s Hrun) as Hfresh.
  assert (Hc : handleCommand env (verb :: c :: rest) (world s)
               = mkHandled (print (PText nl) (world s))
                           [{| Lat := gLat g; Lon := gLon g |}] HRecvWeather).
  { unfold handleCommand. rewrite Hverb. simpl.
    unfold getWeatherByCity. now rewrite Hgeo. }
  pose proof (nth_error_setNth _ _ _ _ HRecvWeather Hh) as Hh1.
  eexists.
  split; [unfold step; rewrite Hf, Hh, Hc; reflexivity|].
  simpl. split; [reflexivity|].
  unfold step, spawn. simpl.
  rewrite (takeTask_last _ _ _ Hfresh), Hh1. unfold outcome. rewrite Hw.
  split.
  - eexists. split; [reflexivity|]. simpl.
    split; [now rewrite <- app_assoc|]. split; [|reflexivity].
    eapply nth_error_setNth. exact Hh1.
  - eexists. split; [reflexivity|]. simpl.
    split; [now rewrite <- !app_assoc|]. split; [exact Hh1 | reflexivity].
Qed.

Lemma w_result_has_two_receivers_witness :
  exists s1,
    step Sample.env
         {| world := print prompt (world (start Sample.env));
            handlers := [HStart ["w"; "paris"]];
            tasks := []; issued := 0; fatal := None |} (Run 0) = Some s1
    /\ tasks s1 = [(0, {| Lat := 48%Z; Lon := 2%Z |})].
Proof.
  destruct (w_result_has_two_receivers
              Sample.env [Scan (ScanLine "w paris")] _ 0 "w" "paris" []
              {| Name := "Paris"; gLat := 48%Z; gLon := 2%Z; gCountry := "FR" |}
              {| Temperature := 48%Z; FeelsLike := 2%Z;
                 Description := "clear sky"; wCountry := "--"; wCity := "--" |}
              eq_refl eq_refl eq_refl eq_refl eq_refl eq_refl)
    as (s1 & H1 & H2 & _).
  exists s1. split; [exact H1 | exact H2].
Defined.

(** ** The revision without goroutines *)





(** X17: for the commands that spawn nothing the two revisions agree: the
    command of the loop without goroutines leaves the world that
    [handleCommand] leaves once [main] has printed the error it sends ([w]
    and [f] apart, and a [fav] without a city, whose message the older loop
    prints itself). *)
Theorem sequential_command_agrees :
  forall (env : Env) (verb : string) (args : list string) (w : World),
    ToLower verb <> "w" ->
    ToLower verb <> "f" ->
    (ToLower verb = "fav" -> args <> []) ->
    Sequential.command env (verb :: args) w
    = settle (handleCommand env (verb :: args) w).
Proof.
  intros env verb args w Hw Hf Hfav.
  unfold Sequential.command, handleCommand.
  destruct (String.eqb_spec (ToLower verb) "w") as [E|_]; [now elim Hw|].
  destruct (String.eqb_spec (ToLower verb) "f") as [E|_]; [now elim Hf|].
  destruct (String.eqb (ToLower verb) "list"); [reflexivity|].
  destruct (String.eqb_spec (ToLower verb) "fav") as [E|_].
  { destruct args as [|c rest]; [now elim (Hfav E)|]. simpl.
    unfold Sequential.report, ofError, settle.
    match goal with
    | |- context [addFavourite env ?a ?b ?x] =>
        destruct (addFavourite env a b x) as [w1 [e|]]
    end; reflexivity. }
  destruct (String.eqb (ToLower verb) "remove").
  { unfold Sequential.report, ofError, settle.
    match goal with
    | |- context [removeFavourite env ?a ?x] =>
        destruct (removeFavourite env a x) as [w1 [e|]]
    end; reflexivity. }
  destruct (String.eqb (ToLower verb) "help"); reflexivity.
Qed.

Lemma sequential_command_agrees_witness :
  Sequential.command Sample.env ["remove"; "oslo"] Sample.world0
  = settle (handleCommand Sample.env ["remove"; "oslo"] Sample.world0).
Proof.
  apply sequential_command_agrees.
  - simpl. discriminate.
  - simpl. discriminate.
  - simpl. discriminate.
Defined.



(** ** The revision of [src/main.go] *)

Lemma isFavourite_app (city : string) (a b : list Location) :
  isFavourite city (a ++ b)%list = isFavourite city a || isFavourite city b.
Proof. unfold isFavourite. apply existsb_app. Qed.

Lemma basic_addFavourite_favs (env : Env) (city country : string) (w : World) :
  favs (fst (Basic.addFavourite env city country w)) = favs w
  \/ (isFavourite city (favs w) = false
      /\ exists co,
          favs (fst (Basic.addFavourite env city country w))
          = (favs w ++ [{| City := city; Country := country; Coords := co |}])%list).
Proof.
  unfold Basic.addFavourite.
  destruct (isFavourite city (favs w)) eqn:Hdup; [now left|].
  destruct (fetchCoordinates env city country) as [e|co]; [now left|].
  right. split; [reflexivity|]. exists co. break_match; reflexivity.
Qed.

(** X19: in [src/main.go] the entry stores the city as given, so
    [addFavourite] keeps the city names of the list distinct up to case
    with any provider, whatever way the call ends. *)
Theorem basic_addFavourite_keeps_unique :
  forall (env : Env) (city country : string) (w : World),
    uniqueCities (favs w) ->
    uniqueCities (favs (fst (Basic.addFavourite env city country w))).
Proof.
  intros env city country w Huniq.
  destruct (basic_addFavourite_favs env city country w)
    as [->|(Hdup & co & ->)]; [exact Huniq|].
  unfold uniqueCities. rewrite cityKeys_app. simpl.
  eapply Permutation_NoDup; [apply Permutation_cons_append|].
  constructor; [|exact Huniq].
  unfold cityKeys. intros Hin.
  apply in_map_iff in Hin as (f & Hf & Hin).
  assert (isFavourite city (favs w) = true)
    by (apply isFavourite_spec; now exists f).
  congruence.
Qed.

Lemma basic_addFavourite_keeps_unique_witness :
  uniqueCities
    (favs (fst (Basic.addFavourite Sample.env "nyc" "us" Sample.world0))).
Proof.
  apply basic_addFavourite_keeps_unique.
  repeat constructor. intros [].
Defined.

(** X20: in [src/main.go], once [addFavourite] has returned, the same city
    given again, in any case of its letters, is reported as existing and
    the list stays as it is. *)
Theorem basic_addFavourite_twice :
  forall (env : Env) (city city' country country' : string) (w : World),
    snd (Basic.addFavourite env city country w) = Returned ->
    ToLower city' = ToLower city ->
    let w1 := fst (Basic.addFavourite env city country w) in
    Basic.addFavourite env city' country' w1
    = (print (PText (city' ++ " already exists in favourites" ++ nl)) w1,
       Returned).
Proof.
  intros env city city' country country' w Hret Hsame w1.
  assert (Hin : isFavourite city' (favs w1) = true).
  { assert (Hkey : forall l, isFavourite city' l = isFavourite city l).
    { intros l. unfold isFavourite. now rewrite Hsame. }
    rewrite Hkey. subst w1. revert Hret. unfold Basic.addFavourite.
    destruct (isFavourite city (favs w)) eqn:Hdup; [intros _; exact Hdup|].
    destruct (fetchCoordinates env city country) as [e|co]; [discriminate|].
    break_match; try discriminate. intros _. simpl.
    unfold favs. simpl. fold (favs w). rewrite isFavourite_app. simpl.
    rewrite String.eqb_refl. simpl. apply orb_true_r. }
  unfold Basic.addFavourite. now rewrite Hin.
Qed.

Lemma basic_addFavourite_twice_witness :
  Basic.addFavourite Sample.env "NYC" "us"
    (fst (Basic.addFavourite Sample.env "nyc" "us" Sample.world0))
  = (print (PText ("NYC" ++ " already exists in favourites" ++ nl))
           (fst (Basic.addFavourite Sample.env "nyc" "us" Sample.world0)),
     Returned).
Proof.
  apply (basic_addFavourite_twice Sample.env "nyc" "NYC" "us" "us"
           Sample.world0 eq_refl eq_refl).
Defined.

(** X21: one turn of the loop of [src/main.go].  A line without a field
    makes [input[0]] panic; with a field, the turn comes back only when the
    lookup and the request succeed, the result printed after the two
    prompt lines, and every failure ends the process. *)
Theorem basic_turn :
  forall (env : Env) (text : string) (w : World),
    let w0 := print (PText "City: ")
                    (print (PText ("Get weather by City" ++ nl)) w) in
    (Fields text = [] -> Basic.turn env (ScanLine text) w = (w0, Panicked))
    /\ (snd (Basic.turn env (ScanLine text) w) = Returned ->
        exists city rest co res,
          Fields text = city :: rest
          /\ fetchCoordinates env city
               (match rest with c :: _ => c | [] => EmptyString end) = inr co
          /\ weatherOf env co = inr res
          /\ fst (Basic.turn env (ScanLine text) w) = print (PResult res) w0).
Proof.
  intros env text w w0. unfold Basic.turn. fold w0. split.
  - intros ->. reflexivity.
  - destruct (Fields text) as [|city rest]; [discriminate|].
    unfold Basic.getWeatherByCity.
    destruct (fetchCoordinates env city _) as [e|co] eqn:Hc; [discriminate|].
    destruct (weatherOf env co) as [e|res] eqn:Hw; [discriminate|].
    intros _. exists city, rest, co, res. now repeat split.
Qed.

Lemma basic_turn_witness :
  Basic.turn Sample.env (ScanLine "  ") Sample.world0
  = (print (PText "City: ")
           (print (PText ("Get weather by City" ++ nl)) Sample.world0),
     Panicked)
  /\ exists city rest co res,
      Fields "paris fr" = city :: rest
      /\ fetchCoordinates Sample.env city
           (match rest with c :: _ => c | [] => EmptyString end) = inr co
      /\ weatherOf Sample.env co = inr res
      /\ fst (Basic.turn Sample.env (ScanLine "paris fr") Sample.world0)
         = print (PResult res)
             (print (PText "City: ")
                    (print (PText ("Get weather by City" ++ nl)) Sample.world0)).
Proof.
  split.
  - apply (proj1 (basic_turn Sample.env "  " Sample.world0)). reflexivity.
  - apply (proj2 (basic_turn Sample.env "paris fr" Sample.world0)).
    reflexivity.
Defined.

(** ** The first revision *)





(** ** Reading a command back *)



